(** * soquery: the StackOverflow query builder of CrossLanguageEmpirical

    A shallow embedding of [CrossLanguageEmpirical/soquery.py].  The script
    builds SQL text by string interpolation, sends it to a remote store and
    saves the answer as CSV.  Strings are [string], the module-level dict
    [tag_langs] is a [gmap string string], the module-level list [langs] is a
    [list string] sorted at load time, and the remote query, the printing
    and the CSV writing are recorded as a trace of [event]s. *)

From Stdlib Require Import Ascii String.
From stdpp Require Import base strings list sorting gmap.

Local Open Scope string_scope.

(** ** Python string operations used by the script *)

Module Str.

(** The two-character escape [\n] of a Python (non raw) literal. *)
Definition nl : string := String "010"%char "".

(** [s.startswith(p)] *)
Fixpoint startswith (p s : string) : bool :=
  match p, s with
  | "", _ => true
  | String a p', String b s' => if decide (a = b) then startswith p' s' else false
  | String _ _, "" => false
  end.

(** [x in s] for strings: [x] occurs somewhere in [s]. *)
Fixpoint contains (x s : string) : bool :=
  startswith x s ||
  match s with
  | "" => false
  | String _ s' => contains x s'
  end.

(** Number of positions of [s] at which [x] starts. *)
Fixpoint occurrences (x s : string) : nat :=
  (if startswith x s then 1 else 0) +
  match s with
  | "" => 0
  | String _ s' => occurrences x s'
  end.

(** [s.endswith(x)] *)
Definition endswith (x s : string) : bool :=
  startswith (String.rev x) (String.rev s).

(** [s.replace(old, new)] for a one-character [old]. *)
Fixpoint replace (old : ascii) (new s : string) : string :=
  match s with
  | "" => ""
  | String c s' =>
      if decide (c = old) then new +:+ replace old new s'
      else String c (replace old new s')
  end.

(** [sep.join(l)] *)
Fixpoint join (sep : string) (l : list string) : string :=
  match l with
  | [] => ""
  | [x] => x
  | x :: l' => x +:+ sep +:+ join sep l'
  end.

(** Propositional reading of [contains]. *)
Definition substring_of (x s : string) : Prop :=
  ∃ pre post, s = pre +:+ x +:+ post.

End Str.

(** ** Module-level data *)

(** The literal assigned to [langs], before [langs.sort()]. *)
Definition langs_literal : list string :=
  ["java"; "c"; "c++"; "c#"; "python"; "visual basic"; "node";
   "perl"; "php"; "ruby"; "go"; "swift"; "objective c"; "cobol"; "fortran";
   "lua"; "scala"; "lisp"; "haskell"; "rust"; "erlang"; "clojure"; "matlab";
   "pascal"; "r"; "kotlin"].

(** [langs.sort()]: ascending order of [str], which compares code points. *)
Definition langs : list string := merge_sort String.le langs_literal.

(** Some languages require the right tag text, this dict maps to it. *)
Definition tag_langs : gmap string string :=
  <["visual basic" := "vb.net"]>
  (<["node" := "node.js"]>
  (<["objective c" := "objective-c"]> ∅)).

Definition DIR : string := "/Volumes/TarDisk/soposts2".

(** ** Utility functions for language text or language filename *)

Definition fix_lang_text (lang : string) : string :=
  if decide (lang = "c") then "/\bin c\b/"
  else if decide (lang = "r") then "/\bin r\b/"
  else if decide (lang = "go") then "/\bin go\b/"
  else "/\b" +:+ lang +:+ "\b/".

Definition lang_file_name (lang : string) : string :=
  if decide (lang = "c#") then "cs"
  else if decide (lang = "c++") then "cpp"
  else if decide (lang = "objective c") then "objectivec"
  else if decide (lang = "visual basic") then "visualbasic"
  else lang.

Definition revert_lang_file_name (lang : string) : string :=
  if decide (lang = "cs") then "c#"
  else if decide (lang = "cpp") then "c++"
  else if decide (lang = "objectivec") then "objective c"
  else if decide (lang = "visualbasic") then "visual basic"
  else lang.


(** ** Functions for querying from SO *)

(** What the script does to the outside world, in program order.  The
    dataframe returned by an [EvQuery] is the one saved by the next
    [EvToCsv].  Creating the client has no effect of its own here. *)
Inductive event : Type :=
  | EvPrint (text : string)
  | EvQuery (sql : string) (location : option string)
  | EvToCsv (path : string).

(** The f-string assigned to [query] in [query_language_pair], as a function
    of the three names it interpolates. *)
Definition pair_fstring (atag btag btext : string) : string :=
  Str.join Str.nl
    [ "";
      "        SELECT CONCAT('http://stackoverflow.com/q/', Cast(P.Id as string)) as URL, P.Title, P.ViewCount, P.Score, P.AcceptedAnswerId, P.Tags, P.Body";
      "        FROM `sotorrent-org.2018_12_09.Posts` P";
      "        WHERE P.PostTypeId = 1 AND (";
      "        (P.Tags LIKE '" +:+ atag +:+ "' AND P.Tags LIKE '" +:+ btag +:+ "')";
      "        OR";
      "        (P.Tags LIKE '" +:+ atag +:+ "' AND (P.Title LIKE '" +:+ btext +:+ "' OR P.Body LIKE '" +:+ btext +:+ "'))";
      "        )";
      "        AND";
      "        P.Score >= 0";
      "        AND";
      "        P.AcceptedAnswerId IS NOT NULL";
      "        " ].

(** The SQL text that [query_language_pair] sends.  The local
    [lang_no_space] of the source is assigned and never read. *)
Definition pair_query (a b : string) : string :=
  let btext := fix_lang_text b in
  let atag :=
    match tag_langs !! a with
    | Some t => "%<" +:+ t +:+ ">%"
    | None => "%<" +:+ a +:+ ">%"
    end in
  let btag :=
    match tag_langs !! b with
    | Some t => "%<" +:+ t +:+ ">%"
    | None => "%<" +:+ b +:+ ">%"
    end in
  pair_fstring atag btag btext.

(** The default of the keyword argument [path]. *)
Definition default_path : string := "./".

Definition query_language_pair (a b path : string) : list event :=
  let query := pair_query a b in
  let a_filename := lang_file_name a in
  let b_filename := lang_file_name b in
  [ EvPrint ("Querying posts for pair <" +:+ a +:+ ", " +:+ b +:+ ">...");
    EvQuery query (Some "US");
    EvPrint "Saving...";
    EvToCsv (path +:+ "/" +:+ a_filename +:+ "_" +:+ b_filename +:+ ".csv") ].

(** The f-string appended for one target language in [build_sql_expr]. *)
Definition count_fstring (lang_no_space atag btag btext : string) : string :=
  Str.join Str.nl
    [ "";
      "            (SELECT COUNT(distinct P.Id) AS " +:+ lang_no_space;
      "            FROM `sotorrent-org.2018_12_09.Posts` P";
      "            WHERE P.PostTypeId = 1 AND (";
      "            (P.Tags LIKE '" +:+ atag +:+ "' AND P.Tags LIKE '" +:+ btag +:+ "')";
      "            OR";
      "            (P.Tags LIKE '" +:+ atag +:+ "' AND (P.Title LIKE '" +:+ btext +:+ "' OR P.Body LIKE '" +:+ btext +:+ "'))";
      "            )";
      "            AND";
      "            P.Score >= 0) AS " +:+ lang_no_space ].

(** [enumerate(l)] *)
Definition enumerate {A} (l : list A) : list (nat * A) :=
  zip (seq 0 (length l)) l.

(** One turn of the [for i, l in enumerate(langs)] loop of
    [build_sql_expr]: the new value of [sql_expr]. *)
Definition build_step (a atag sql_expr : string) (il : nat * string) : string :=
  let '(i, l) := il in
  let btext := fix_lang_text l in
  let btag :=
    match tag_langs !! l with
    | Some t => "%<" +:+ t +:+ ">%"
    | None => "%<" +:+ l +:+ ">%"
    end in
  let lang_no_space := Str.replace " " "" (lang_file_name l) in
  if decide (l ≠ a) then
    let sql_expr := sql_expr +:+ count_fstring lang_no_space atag btag btext in
    if decide (a = "visual basic" ∧ l = "swift") then sql_expr
    else if decide (i ≠ length langs - 1) then sql_expr +:+ "," +:+ Str.nl
    else sql_expr
  else sql_expr.

Definition build_sql_expr (a : string) : string :=
  let sql_expr := "SELECT * FROM" +:+ Str.nl +:+ Str.nl in
  let atag :=
    match tag_langs !! a with
    | Some t => "%<" +:+ t +:+ ">%"
    | None => "%<" +:+ a +:+ ">%"
    end in
  foldl (build_step a atag) sql_expr (enumerate langs).

Definition query_all : list event :=
  l ← langs;
  let sql_expr := build_sql_expr l in
  let csv_name := lang_file_name l in
  [ EvPrint ("Querying for " +:+ l +:+ "...");
    EvQuery sql_expr None;
    EvToCsv ("langcounts/" +:+ csv_name +:+ ".csv") ].

(** The two hardcoded lists of [query_pairs]. *)
Definition prev : list string :=
  ["c"; "cs"; "clojure"; "java"; "kotlin"; "lua"; "matlab"; "node";
   "objectivec"; "perl"; "php"; "python"; "r"; "ruby"; "scala"].

Definition target : list string :=
  ["cpp"; "visualbasic"; "java"; "cs"; "java"; "cpp"; "python"; "php";
   "swift"; "python"; "java"; "cpp"; "python"; "python"; "java"].

(** The arguments [(p, t)] with which [query_pairs] calls
    [query_language_pair], in call order. *)
Definition query_pairs_calls : list (string * string) :=
  '(p, t) ← zip prev target;
  let p := revert_lang_file_name p in
  let t := revert_lang_file_name t in
  [(p, t)].

Definition query_pairs : list event :=
  '(p, t) ← zip prev target;
  let p := revert_lang_file_name p in
  let t := revert_lang_file_name t in
  EvPrint ("Saving posts for <" +:+ p +:+ ", " +:+ t +:+ ">...")
    :: query_language_pair p t DIR.

(** The pairs listed in the docstring of [query_pairs], line by line, in the
    filename form the docstring uses. *)
Definition documented_pairs : list (string * string) :=
  [ ("c", "cpp"); ("cs", "visualbasic"); ("clojure", "java"); ("java", "cs");
    ("kotlin", "java"); ("lua", "cpp"); ("matlab", "python"); ("node", "php");
    ("objectivec", "swift"); ("perl", "python"); ("php", "java");
    ("python", "cpp"); ("r", "python"); ("ruby", "python"); ("scala", "java") ].

(** ** The builders as the specification describes them *)

(** Tag lookup: the override of [tag_langs] when there is one, the canonical
    name otherwise, between [%<] and [>%]. *)
Definition tag_pattern (l : string) : string :=
  "%<" +:+ default l (tag_langs !! l) +:+ ">%".

(** The filename token of [l] with its spaces removed. *)
Definition alias (l : string) : string :=
  Str.replace " " "" (lang_file_name l).

(** The count subselect for source [a] and target [l]. *)
Definition count_subselect (a l : string) : string :=
  count_fstring (alias l) (tag_pattern a) (tag_pattern l) (fix_lang_text l).

(** The languages other than [a], in the order of [langs]. *)
Definition targets (a : string) : list string :=
  filter (λ l, l ≠ a) langs.

Definition header : string := "SELECT * FROM" +:+ Str.nl +:+ Str.nl.
Definition separator : string := "," +:+ Str.nl.

(** One subselect per target, joined by the separator. *)
Definition chained (a : string) : string :=
  header +:+ Str.join separator (count_subselect a <$> targets a).

(** The two alternatives of the predicate of section 4.2 and the predicate
    as a whole: a question, with tag and tag or tag and text, of
    non-negative score.  [indent] is the indentation of the template. *)
Definition tag_tag_clause (atag btag : string) : string :=
  "(P.Tags LIKE '" +:+ atag +:+ "' AND P.Tags LIKE '" +:+ btag +:+ "')".

Definition tag_text_clause (atag btext : string) : string :=
  "(P.Tags LIKE '" +:+ atag +:+ "' AND (P.Title LIKE '" +:+ btext +:+
  "' OR P.Body LIKE '" +:+ btext +:+ "'))".

Definition where_predicate (indent atag btag btext : string) : string :=
  Str.join (Str.nl +:+ indent)
    [ "WHERE P.PostTypeId = 1 AND (";
      tag_tag_clause atag btag;
      "OR";
      tag_text_clause atag btext;
      ")";
      "AND";
      "P.Score >= 0" ].

(** What one turn of the loop of [build_sql_expr] appends to [sql_expr],
    for the language [l] at index [i]. *)
Definition emitted_at (a atag : string) (i : nat) (l : string) : string :=
  if decide (l ≠ a) then
    count_fstring (alias l) atag (tag_pattern l) (fix_lang_text l) +:+
    (if decide (a = "visual basic" ∧ l = "swift") then ""
     else if decide (i ≠ length langs - 1) then separator else "")
  else "".

(** What the turns from index [k] on append, for the languages [ls]. *)
Fixpoint emitted_from (a atag : string) (k : nat) (ls : list string) : string :=
  match ls with
  | [] => ""
  | l :: ls' => emitted_at a atag k l +:+ emitted_from a atag (S k) ls'
  end.

(** The text by which a count subselect is recognised in a query. *)
Definition subselect_marker : string := "(SELECT COUNT(distinct P.Id) AS ".

Definition count_subselects (sql : string) : nat :=
  Str.occurrences subselect_marker sql.

Definition count_separators (sql : string) : nat :=
  Str.occurrences separator sql.

(** The keys of the two if-chains of [lang_file_name] and
    [revert_lang_file_name]. *)
Definition file_name_keys : list string :=
  ["c#"; "c++"; "objective c"; "visual basic"].

Definition file_name_tokens : list string :=
  ["cs"; "cpp"; "objectivec"; "visualbasic"].

(** ** Traces and their execution *)

Global Instance event_eq_dec : EqDecision event.
Proof. solve_decision. Defined.

(** The paths of the CSV files that a trace writes, in order. *)
Definition csv_paths (tr : list event) : list string :=
  e ← tr; match e with EvToCsv path => [path] | _ => [] end.

(** The statements that a trace sends, in order. *)
Definition queries (tr : list event) : list string :=
  e ← tr; match e with EvQuery sql _ => [sql] | _ => [] end.


(** The keys of the dict [tag_langs]. *)
Definition tag_keys : list string :=
  ["visual basic"; "node"; "objective c"].

(** Occurrences of the single quote, which opens and closes the SQL string
    literals of the two templates. *)
Definition quotes (s : string) : nat := Str.occurrences "'" s.

(** * Properties *)

(** ** Strings *)

Module StrFacts.
Import Str.

Lemma app_cons a s t : String a s +:+ t = String a (s +:+ t).
Proof. reflexivity. Qed.

Lemma app_nil_l s : "" +:+ s = s.
Proof. reflexivity. Qed.

Lemma app_nil_r s : s +:+ "" = s.
Proof. induction s as [|a s IH]; [done|]. by rewrite app_cons, IH. Qed.

Lemma app_assoc s t u : (s +:+ t) +:+ u = s +:+ t +:+ u.
Proof. induction s as [|a s IH]; [done|]. by rewrite !app_cons, IH. Qed.

Lemma startswith_app p s : startswith p (p +:+ s) = true.
Proof.
  induction p as [|a p IH]; [done|].
  rewrite app_cons. simpl. by rewrite decide_True.
Qed.

Lemma startswith_inv p s : startswith p s = true → ∃ t, s = p +:+ t.
Proof.
  revert s. induction p as [|a p IH]; intros s H.
  - by exists s.
  - destruct s as [|b s]; [done|]. simpl in H.
    destruct (decide (a = b)) as [->|]; [|done].
    destruct (IH _ H) as [t ->]. by exists t.
Qed.

Lemma contains_intro x pre post : contains x (pre +:+ x +:+ post) = true.
Proof.
  induction pre as [|a pre IH].
  - rewrite app_nil_l. destruct (x +:+ post) eqn:E; simpl;
      rewrite <- E, startswith_app; done.
  - rewrite app_cons. simpl. rewrite IH. apply orb_true_r.
Qed.

Lemma contains_spec x s : contains x s = true ↔ substring_of x s.
Proof.
  split.
  - induction s as [|a s IH]; simpl; intros H.
    + rewrite orb_false_r in H. destruct (startswith_inv _ _ H) as [t ->].
      by exists "", t.
    + apply orb_true_iff in H as [H|H].
      * destruct (startswith_inv _ _ H) as [t ->]. by exists "", t.
      * destruct (IH H) as (pre & post & ->). by exists (String a pre), post.
  - intros (pre & post & ->). apply contains_intro.
Qed.

Lemma not_contains x s : contains x s = false → ¬ substring_of x s.
Proof. intros H ?%contains_spec. congruence. Qed.

(** After [replace(c, '')] no [c] is left. *)
Lemma replace_erases c s : contains (String c "") (replace c "" s) = false.
Proof.
  induction s as [|b s IH]; [done|]. simpl.
  destruct (decide (b = c)) as [->|Hne]; [by rewrite app_nil_l|].
  simpl. rewrite decide_False by done. by rewrite IH.
Qed.

(** [replace] leaves a string without [c] as it is. *)
Lemma replace_absent c new s :
  contains (String c "") s = false → replace c new s = s.
Proof.
  induction s as [|b s IH]; [done|]. simpl.
  destruct (decide (c = b)) as [->|Hne]; [done|]. simpl. intros H.
  rewrite decide_False by done. by rewrite IH.
Qed.

Lemma substring_of_refl x : substring_of x x.
Proof. exists "", "". by rewrite app_nil_r. Qed.

Lemma substring_of_app_l x s t : substring_of x s → substring_of x (s +:+ t).
Proof.
  intros (pre & post & ->). exists pre, (post +:+ t).
  by rewrite !app_assoc.
Qed.

Lemma substring_of_app_r x s t : substring_of x t → substring_of x (s +:+ t).
Proof.
  intros (pre & post & ->). exists (s +:+ pre), post.
  by rewrite !app_assoc.
Qed.

Lemma substring_of_trans x y z :
  substring_of x y → substring_of y z → substring_of x z.
Proof.
  intros Hxy (pre & post & ->).
  by apply substring_of_app_r, substring_of_app_l.
Qed.

Lemma join_cons sep x l :
  l ≠ [] → join sep (x :: l) = x +:+ sep +:+ join sep l.
Proof. by destruct l. Qed.

Lemma join_member sep x l : x ∈ l → substring_of x (join sep l).
Proof.
  induction l as [|y l IH]; [by intros ?%elem_of_nil|].
  destruct (decide (l = [])) as [->|Hl].
  - intros ->%list_elem_of_singleton. apply substring_of_refl.
  - rewrite join_cons by done. intros [->|Hx]%elem_of_cons.
    + apply substring_of_app_l, substring_of_refl.
    + by apply substring_of_app_r, substring_of_app_r, IH.
Qed.

End StrFacts.

(** ** The language list *)

Lemma langs_sorted_value :
  langs =
  ["c"; "c#"; "c++"; "clojure"; "cobol"; "erlang"; "fortran"; "go";
   "haskell"; "java"; "kotlin"; "lisp"; "lua"; "matlab"; "node";
   "objective c"; "pascal"; "perl"; "php"; "python"; "r"; "ruby"; "rust";
   "scala"; "swift"; "visual basic"].
Proof. vm_compute. reflexivity. Qed.

Lemma langs_length : length langs = 26.
Proof. by rewrite langs_sorted_value. Qed.

Lemma langs_last : last langs = Some "visual basic".
Proof. by rewrite langs_sorted_value. Qed.

Lemma langs_NoDup : NoDup langs.
Proof. rewrite langs_sorted_value. apply (bool_decide_unpack _). by vm_compute. Qed.

Lemma StronglySorted_filter {A} (R : relation A) (P : A → Prop)
    `{!∀ x, Decision (P x)} (l : list A) :
  StronglySorted R l → StronglySorted R (filter P l).
Proof.
  induction 1 as [|x l Hl IH Hx]; [constructor|].
  rewrite filter_cons. destruct (decide (P x)); [|done].
  constructor; [done|].
  apply Forall_forall. intros y [_ Hy]%list_elem_of_filter.
  by eapply Forall_forall in Hx.
Qed.

(** [langs] is what Python's sort returns: the ascending rearrangement of
    the literal. *)
Lemma langs_sort_spec : StronglySorted String.le langs ∧ langs ≡ₚ langs_literal.
Proof.
  split.
  - apply StronglySorted_merge_sort; apply _.
  - apply merge_sort_Permutation.
Qed.

(** ** The loop of [build_sql_expr] *)

Section loop.
Import Str StrFacts.

(** The source language and its tag pattern are fixed during the loop. *)
Variables a atag : string.

Lemma btag_tag_pattern l :
  match tag_langs !! l with
  | Some t => "%<" +:+ t +:+ ">%"
  | None => "%<" +:+ l +:+ ">%"
  end = tag_pattern l.
Proof. unfold tag_pattern. by destruct (tag_langs !! l). Qed.

Lemma build_step_emitted acc i l :
  build_step a atag acc (i, l) = acc +:+ emitted_at a atag i l.
Proof.
  unfold build_step, emitted_at. rewrite btag_tag_pattern. fold (alias l).
  unfold separator.
  repeat case_decide; rewrite ?app_assoc, ?app_nil_r; done.
Qed.

Lemma foldl_build_step ls : ∀ acc k,
  foldl (build_step a atag) acc (zip (seq k (length ls)) ls)
  = acc +:+ emitted_from a atag k ls.
Proof.
  induction ls as [|l ls IH]; intros acc k;
    cbn [length seq zip_with foldl emitted_from].
  - by rewrite app_nil_r.
  - by rewrite build_step_emitted, IH, app_assoc.
Qed.

(** When the last language is a target and the source is not the special
    one, the loop writes the subselects of the targets joined by the
    separator. *)
Lemma emitted_from_join ls z : ∀ k,
  a ≠ "visual basic" → z ≠ a → k + length ls = length langs - 1 →
  emitted_from a atag k (ls ++ [z])%list
  = join separator
      ((λ l, count_fstring (alias l) atag (tag_pattern l) (fix_lang_text l))
       <$> filter (λ l, l ≠ a) (ls ++ [z])%list).
Proof.
  intros k Hvb Hz. revert k.
  induction ls as [|l ls IH]; intros k Hk;
    cbn [app emitted_from length] in *.
  - unfold emitted_at. rewrite filter_cons_True by done.
    rewrite decide_True by done.
    rewrite decide_False by (intros [? _]; done).
    rewrite decide_False by lia. cbn [fmap list_fmap join].
    by rewrite !app_nil_r.
  - rewrite IH by lia. unfold emitted_at.
    rewrite filter_cons. destruct (decide (l ≠ a)) as [Hl|Hl]; [|done].
    rewrite decide_False by (intros [? _]; done).
    rewrite decide_True by lia.
    rewrite fmap_cons, join_cons, app_assoc; [done|].
    rewrite filter_app, filter_cons_True, fmap_app by done.
    intros []%app_eq_nil; done.
Qed.

End loop.

(** The loop of [build_sql_expr] appends, turn by turn, what [emitted_from]
    collects. *)
Lemma build_sql_expr_emitted a :
  build_sql_expr a = header +:+ emitted_from a (tag_pattern a) 0 langs.
Proof.
  unfold build_sql_expr, enumerate.
  by rewrite btag_tag_pattern, foldl_build_step.
Qed.

(** For every source language, member of [langs] or not, the text built is
    the header followed by the subselects of the targets, joined by the
    separator. *)
Lemma build_sql_expr_chained a : build_sql_expr a = chained a.
Proof.
  destruct (decide (a = "visual basic")) as [->|Hvb].
  - vm_compute. reflexivity.
  - rewrite build_sql_expr_emitted. unfold chained, targets. f_equal.
    rewrite langs_sorted_value.
    apply (emitted_from_join a (tag_pattern a)
             ["c"; "c#"; "c++"; "clojure"; "cobol"; "erlang"; "fortran"; "go";
              "haskell"; "java"; "kotlin"; "lisp"; "lua"; "matlab"; "node";
              "objective c"; "pascal"; "perl"; "php"; "python"; "r"; "ruby";
              "rust"; "scala"; "swift"] "visual basic" 0); [done|done|].
    by rewrite langs_length.
Qed.

(** Case analysis on a member of [langs]: one goal per language. *)
Ltac each_lang H :=
  rewrite langs_sorted_value in H;
  repeat (apply elem_of_cons in H as [->|H]);
  [..|by apply elem_of_nil in H].

(** ** Tag lookup *)

Lemma tag_pattern_override l t :
  tag_langs !! l = Some t → tag_pattern l = "%<" +:+ t +:+ ">%".
Proof. unfold tag_pattern. by intros ->. Qed.

Lemma tag_pattern_canonical l :
  tag_langs !! l = None → tag_pattern l = "%<" +:+ l +:+ ">%".
Proof. unfold tag_pattern. by intros ->. Qed.

Lemma tag_langs_entries l t :
  tag_langs !! l = Some t ↔
  (l, t) ∈ [("visual basic", "vb.net"); ("node", "node.js");
            ("objective c", "objective-c")].
Proof.
  unfold tag_langs. rewrite !lookup_insert_Some, lookup_empty.
  rewrite !elem_of_cons, elem_of_nil. split.
  - intros [[<- <-]|[_ [[<- <-]|[_ [[<- <-]|[_ ?]]]]]]; auto; done.
  - intros [?|[?|[?|[]]]]; simplify_eq; auto 10.
Qed.

Lemma pair_query_tag_patterns a b :
  pair_query a b = pair_fstring (tag_pattern a) (tag_pattern b) (fix_lang_text b).
Proof. unfold pair_query. by rewrite !btag_tag_pattern. Qed.

(** ** Text helpers *)

(** C8: [fix_lang_text] gives the phrase patterns for "in c", "in r" and
    "in go" on "c", "r" and "go", and on every other language the plain
    word-boundary pattern, the language name verbatim between [/\b] and
    [\b/]. *)
Theorem fix_lang_text_patterns :
  fix_lang_text "c" = "/\bin c\b/" ∧
  fix_lang_text "r" = "/\bin r\b/" ∧
  fix_lang_text "go" = "/\bin go\b/" ∧
  ∀ lang, lang ≠ "c" → lang ≠ "r" → lang ≠ "go" →
    fix_lang_text lang = "/\b" +:+ lang +:+ "\b/".
Proof.
  repeat split. intros lang Hc Hr Hgo. unfold fix_lang_text.
  by rewrite !decide_False.
Qed.

Lemma fix_lang_text_patterns_witness :
  "python" ≠ "c" ∧ "python" ≠ "r" ∧ "python" ≠ "go" ∧
  fix_lang_text "python" = "/\bpython\b/".
Proof.
  refine (conj _ (conj _ (conj _ _))); [discriminate..|].
  apply (proj2 (proj2 (proj2 fix_lang_text_patterns)) "python"); discriminate.
Defined.

Lemma lang_file_name_off_keys s :
  s ∉ file_name_keys → lang_file_name s = s.
Proof.
  unfold file_name_keys. rewrite !elem_of_cons, elem_of_nil. intros Hs.
  unfold lang_file_name. rewrite !decide_False; [done|naive_solver..].
Qed.

Lemma revert_lang_file_name_off_tokens s :
  s ∉ file_name_tokens → revert_lang_file_name s = s.
Proof.
  unfold file_name_tokens. rewrite !elem_of_cons, elem_of_nil. intros Hs.
  unfold revert_lang_file_name. rewrite !decide_False; [done|naive_solver..].
Qed.

(** C7: the filename token and its inverse round-trip on the four override
    pairs (c# and cs, c++ and cpp, objective c and objectivec, visual basic
    and visualbasic), and both are the identity on every language of [langs]
    that has no override, as on every string that is neither a key nor a
    token of the four pairs. *)
Theorem file_name_round_trip :
  (lang_file_name "c#" = "cs" ∧ revert_lang_file_name "cs" = "c#") ∧
  (lang_file_name "c++" = "cpp" ∧ revert_lang_file_name "cpp" = "c++") ∧
  (lang_file_name "objective c" = "objectivec" ∧
   revert_lang_file_name "objectivec" = "objective c") ∧
  (lang_file_name "visual basic" = "visualbasic" ∧
   revert_lang_file_name "visualbasic" = "visual basic") ∧
  (∀ x, x ∈ file_name_keys → revert_lang_file_name (lang_file_name x) = x) ∧
  (∀ t, t ∈ file_name_tokens → lang_file_name (revert_lang_file_name t) = t) ∧
  (∀ x, x ∈ langs → x ∉ file_name_keys →
     lang_file_name x = x ∧ revert_lang_file_name x = x) ∧
  (∀ x, x ∉ file_name_keys → x ∉ file_name_tokens →
     lang_file_name x = x ∧ revert_lang_file_name x = x).
Proof.
  do 4 (split; [by split|]).
  split; [|split; [|split]].
  - intros x Hx. unfold file_name_keys in Hx.
    repeat (apply elem_of_cons in Hx as [->|Hx]); try reflexivity.
    by apply elem_of_nil in Hx.
  - intros t Ht. unfold file_name_tokens in Ht.
    repeat (apply elem_of_cons in Ht as [->|Ht]); try reflexivity.
    by apply elem_of_nil in Ht.
  - intros x Hx Hkey. split.
    + by apply lang_file_name_off_keys.
    + each_lang Hx; reflexivity.
  - intros x Hkey Htok. split.
    + by apply lang_file_name_off_keys.
    + by apply revert_lang_file_name_off_tokens.
Qed.

Lemma file_name_round_trip_witness :
  ("ruby" ∈ langs) ∧ ("ruby" ∉ file_name_keys) ∧
  lang_file_name "ruby" = "ruby" ∧ revert_lang_file_name "ruby" = "ruby".
Proof.
  assert (Hin : "ruby" ∈ langs) by (apply (bool_decide_unpack _); vm_compute; exact I).
  assert (Hno : "ruby" ∉ file_name_keys) by (apply (bool_decide_unpack _); vm_compute; exact I).
  split; [exact Hin|]. split; [exact Hno|].
  apply (proj1 (proj2 (proj2 (proj2 (proj2 (proj2 (proj2 file_name_round_trip))))))
           "ruby" Hin Hno).
Defined.

(** C10: on a string that is not a key of its if-chain, each lookup helper
    returns the string unchanged.  Both helpers are total functions to
    [string]: there is no input on which they signal an error. *)
Theorem lookup_helpers_identity_off_keys :
  (∀ s, s ∉ file_name_keys → lang_file_name s = s) ∧
  (∀ s, s ∉ file_name_tokens → revert_lang_file_name s = s).
Proof.
  split; intros s Hs.
  - by apply lang_file_name_off_keys.
  - by apply revert_lang_file_name_off_tokens.
Qed.

Lemma lookup_helpers_identity_off_keys_witness :
  (("cobol++" ∉ file_name_keys) ∧ lang_file_name "cobol++" = "cobol++") ∧
  (("c#" ∉ file_name_tokens) ∧ revert_lang_file_name "c#" = "c#").
Proof.
  assert (H1 : "cobol++" ∉ file_name_keys) by (apply (bool_decide_unpack _); vm_compute; exact I).
  assert (H2 : "c#" ∉ file_name_tokens) by (apply (bool_decide_unpack _); vm_compute; exact I).
  split; split; [exact H1| |exact H2|].
  - apply (proj1 lookup_helpers_identity_off_keys "cobol++" H1).
  - apply (proj2 lookup_helpers_identity_off_keys "c#" H2).
Defined.

(** ** The batch driver [query_pairs] *)

(** C9: converting both components of the hardcoded, positionally zipped
    lists back to canonical names gives the fifteen documented pairs, in
    order; ("c", "cpp") becomes ("c", "c++") and ("cs", "visualbasic")
    becomes ("c#", "visual basic"). *)
Theorem query_pairs_canonical :
  zip prev target = documented_pairs ∧
  length query_pairs_calls = 15 ∧
  query_pairs_calls =
    prod_map revert_lang_file_name revert_lang_file_name <$> documented_pairs ∧
  query_pairs_calls =
    [ ("c", "c++"); ("c#", "visual basic"); ("clojure", "java");
      ("java", "c#"); ("kotlin", "java"); ("lua", "c++");
      ("matlab", "python"); ("node", "php"); ("objective c", "swift");
      ("perl", "python"); ("php", "java"); ("python", "c++");
      ("r", "python"); ("ruby", "python"); ("scala", "java") ] ∧
  query_pairs =
    ('(p, t) ← query_pairs_calls;
     EvPrint ("Saving posts for <" +:+ p +:+ ", " +:+ t +:+ ">...")
       :: query_language_pair p t DIR).
Proof. repeat split; vm_compute; reflexivity. Qed.

(** ** The pair query *)

(** C5: for a = "python" and b = "c++" the statement sent keeps questions
    ([PostTypeId = 1]) whose tags match '%<python>%' and '%<c++>%', or whose
    tags match '%<python>%' and whose title or body matches the
    word-boundary pattern of "c++", with [Score >= 0] and
    [AcceptedAnswerId IS NOT NULL]; the answer is saved in the file
    python_cpp.csv of the directory [path]. *)
Theorem query_language_pair_python_cpp (path : string) :
  query_language_pair "python" "c++" path =
  [ EvPrint "Querying posts for pair <python, c++>...";
    EvQuery
      (Str.join Str.nl
         [ "";
           "        SELECT CONCAT('http://stackoverflow.com/q/', Cast(P.Id as string)) as URL, P.Title, P.ViewCount, P.Score, P.AcceptedAnswerId, P.Tags, P.Body";
           "        FROM `sotorrent-org.2018_12_09.Posts` P";
           "        WHERE P.PostTypeId = 1 AND (";
           "        (P.Tags LIKE '%<python>%' AND P.Tags LIKE '%<c++>%')";
           "        OR";
           "        (P.Tags LIKE '%<python>%' AND (P.Title LIKE '/\bc++\b/' OR P.Body LIKE '/\bc++\b/'))";
           "        )";
           "        AND";
           "        P.Score >= 0";
           "        AND";
           "        P.AcceptedAnswerId IS NOT NULL";
           "        " ])
      (Some "US");
    EvPrint "Saving...";
    EvToCsv (path +:+ "/" +:+ "python_cpp.csv") ].
Proof. vm_compute. reflexivity. Qed.

(** ** The shape of the two templates *)

(** Both sides are appends of literals and of the same variables: bring
    them to right-nested form and compare. *)
Ltac str_norm :=
  cbn [Str.join];
  repeat rewrite StrFacts.app_assoc;
  vm_compute; reflexivity.

(** The pair template is its column list and table, the predicate of
    section 4.2, and the restriction to accepted answers. *)
Lemma pair_fstring_shape atag btag btext :
  pair_fstring atag btag btext =
  Str.join Str.nl
    [ "";
      "        SELECT CONCAT('http://stackoverflow.com/q/', Cast(P.Id as string)) as URL, P.Title, P.ViewCount, P.Score, P.AcceptedAnswerId, P.Tags, P.Body";
      "        FROM `sotorrent-org.2018_12_09.Posts` P";
      "        " +:+ where_predicate "        " atag btag btext;
      "        AND";
      "        P.AcceptedAnswerId IS NOT NULL";
      "        " ].
Proof.
  unfold pair_fstring, where_predicate, tag_tag_clause, tag_text_clause.
  str_norm.
Qed.

(** The count template is its aliased count and table and the same
    predicate; the subselect is closed right after it. *)
Lemma count_fstring_shape lang_no_space atag btag btext :
  count_fstring lang_no_space atag btag btext =
  Str.join Str.nl
    [ "";
      "            (SELECT COUNT(distinct P.Id) AS " +:+ lang_no_space;
      "            FROM `sotorrent-org.2018_12_09.Posts` P";
      "            " +:+ where_predicate "            " atag btag btext ] +:+
  ") AS " +:+ lang_no_space.
Proof.
  unfold count_fstring, where_predicate, tag_tag_clause, tag_text_clause.
  str_norm.
Qed.

Lemma tag_tag_clause_like atag btag :
  Str.substring_of ("P.Tags LIKE '" +:+ atag +:+ "'") (tag_tag_clause atag btag).
Proof.
  exists "(", (" AND P.Tags LIKE '" +:+ btag +:+ "')").
  unfold tag_tag_clause. str_norm.
Qed.

Lemma where_predicate_tag_tag indent atag btag btext :
  Str.substring_of (tag_tag_clause atag btag)
    (where_predicate indent atag btag btext).
Proof.
  unfold where_predicate. cbn [Str.join].
  apply StrFacts.substring_of_app_r, StrFacts.substring_of_app_r.
  apply StrFacts.substring_of_app_l, StrFacts.substring_of_refl.
Qed.


Lemma pair_fstring_where atag btag btext :
  Str.substring_of (where_predicate "        " atag btag btext)
    (pair_fstring atag btag btext).
Proof.
  rewrite pair_fstring_shape. cbn [Str.join].
  do 6 apply StrFacts.substring_of_app_r.
  apply StrFacts.substring_of_app_l, StrFacts.substring_of_app_r.
  apply StrFacts.substring_of_refl.
Qed.


(** ** Tag overrides in the two builders *)

(** C6: a language with an entry in [tag_langs] is looked up by that entry,
    not by its canonical name, wherever a tag pattern is written: as source
    and as target of the pair query, as source of the all-targets builder
    and as target of one of its turns.  The entries are those of visual
    basic, node and objective c; for "node" the pattern is '%<node.js>%'
    and '%<node>%' occurs in none of the queries. *)
Theorem tag_override_used :
  (∀ l t, tag_langs !! l = Some t ↔
     (l, t) ∈ [("visual basic", "vb.net"); ("node", "node.js");
               ("objective c", "objective-c")]) ∧
  (∀ l t, tag_langs !! l = Some t →
     (∀ b, pair_query l b =
        pair_fstring ("%<" +:+ t +:+ ">%") (tag_pattern b) (fix_lang_text b)) ∧
     (∀ a, pair_query a l =
        pair_fstring (tag_pattern a) ("%<" +:+ t +:+ ">%") (fix_lang_text l)) ∧
     build_sql_expr l =
       header +:+
       Str.join separator
         ((λ x, count_fstring (alias x) ("%<" +:+ t +:+ ">%") (tag_pattern x)
                  (fix_lang_text x)) <$> targets l) ∧
     (∀ a atag sql_expr i, l ≠ a → ∃ rest,
        build_step a atag sql_expr (i, l) =
        sql_expr +:+
        count_fstring (alias l) atag ("%<" +:+ t +:+ ">%") (fix_lang_text l) +:+
        rest)) ∧
  (∀ b, Str.substring_of "P.Tags LIKE '%<node.js>%'" (pair_query "node" b)) ∧
  (∀ b, b ∈ langs → Str.contains "%<node>%" (pair_query "node" b) = false) ∧
  Str.contains "P.Tags LIKE '%<node.js>%'" (build_sql_expr "node") = true ∧
  (∀ a, a ∈ langs → Str.contains "%<node>%" (build_sql_expr a) = false).
Proof.
  split; [exact tag_langs_entries|].
  split; [|split; [|split; [|split]]].
  - intros l t Hl. pose proof (tag_pattern_override _ _ Hl) as Ht.
    split; [|split; [|split]].
    + intros b. by rewrite pair_query_tag_patterns, Ht.
    + intros a. by rewrite pair_query_tag_patterns, Ht.
    + rewrite build_sql_expr_chained. unfold chained, count_subselect.
      by rewrite Ht.
    + intros a atag sql_expr i Hne. rewrite build_step_emitted.
      unfold emitted_at. rewrite decide_True by done. rewrite Ht.
      by eexists.
  - intros b. rewrite pair_query_tag_patterns.
    eapply StrFacts.substring_of_trans; [|apply pair_fstring_where].
    eapply StrFacts.substring_of_trans; [|apply where_predicate_tag_tag].
    assert (tag_pattern "node" = "%<node.js>%") as ->
      by (vm_compute; reflexivity).
    exact (tag_tag_clause_like "%<node.js>%" (tag_pattern b)).
  - intros b Hb. each_lang Hb; vm_compute; reflexivity.
  - vm_compute. reflexivity.
  - intros a Ha. each_lang Ha; vm_compute; reflexivity.
Qed.

Lemma tag_override_used_witness :
  tag_langs !! "node" = Some "node.js" ∧
  (∀ b, pair_query "node" b =
     pair_fstring "%<node.js>%" (tag_pattern b) (fix_lang_text b)) ∧
  ("python" ∈ langs) ∧
  Str.contains "%<node>%" (build_sql_expr "python") = false.
Proof.
  assert (Hnode : tag_langs !! "node" = Some "node.js")
    by (vm_compute; reflexivity).
  assert (Hpy : "python" ∈ langs)
    by (apply (bool_decide_unpack _); vm_compute; exact I).
  refine (conj Hnode (conj _ (conj Hpy _))).
  - exact (proj1 (proj1 (proj2 tag_override_used) "node" "node.js" Hnode)).
  - exact (proj2 (proj2 (proj2 (proj2 (proj2 tag_override_used)))) "python" Hpy).
Defined.

(** ** The predicate of a count subselect *)




(** ** The subselects of the all-targets builder *)

Lemma alias_NoDup : NoDup (alias <$> langs).
Proof. apply (bool_decide_unpack _). vm_compute. exact I. Qed.

Lemma targets_alias_NoDup a : NoDup (alias <$> targets a).
Proof.
  eapply sublist_NoDup; [apply alias_NoDup|].
  apply fmap_sublist, sublist_filter.
Qed.

Lemma targets_length a : a ∈ langs → length (targets a) = length langs - 1.
Proof. intros Ha. each_lang Ha; vm_compute; reflexivity. Qed.

(** The claim C1 as stated fails: for the last language the builder writes
    [length langs - 1] subselects, not [length langs - 2], and the last of
    them, the one of "swift", is there. *)
Lemma last_language_keeps_all_subselects :
  last langs = Some "visual basic" ∧
  count_subselects (build_sql_expr "visual basic") ≠ length langs - 2 ∧
  Str.substring_of (count_subselect "visual basic" "swift")
    (build_sql_expr "visual basic").
Proof.
  split; [exact langs_last|]. split.
  - vm_compute. discriminate.
  - apply StrFacts.contains_spec. vm_compute. reflexivity.
Qed.

(** C1, amended: when the source is the last language of the sorted list,
    "visual basic", the builder still writes all [length langs - 1]
    subselects, the one of "swift" last; only the separator after that last
    subselect is left out, so that the text has [length langs - 2]
    separators and ends with the subselect of "swift". *)
Theorem build_sql_expr_last_language :
  last langs = Some "visual basic" ∧
  build_sql_expr "visual basic" =
    header +:+
    Str.join separator
      (count_subselect "visual basic" <$>
       filter (λ l, l ≠ "visual basic") langs) ∧
  length (filter (λ l, l ≠ "visual basic") langs) = length langs - 1 ∧
  last (filter (λ l, l ≠ "visual basic") langs) = Some "swift" ∧
  count_subselects (build_sql_expr "visual basic") = length langs - 1 ∧
  count_separators (build_sql_expr "visual basic") = length langs - 2 ∧
  Str.endswith (count_subselect "visual basic" "swift")
    (build_sql_expr "visual basic") = true ∧
  Str.endswith separator (build_sql_expr "visual basic") = false.
Proof.
  split; [exact langs_last|].
  split; [exact (build_sql_expr_chained "visual basic")|].
  split; [vm_compute; reflexivity|].
  split; [vm_compute; reflexivity|].
  split; [vm_compute; reflexivity|].
  split; [vm_compute; reflexivity|].
  split; vm_compute; reflexivity.
Qed.

(** C2: for every language [a] of [langs] the text built has exactly
    [length langs - 1] count subselects, one per language other than [a]
    in the order of [langs], and exactly [length langs - 2] separators,
    none of them after the final subselect; for "visual basic" the
    subselect of "swift" is written and only its separator is left out. *)
Theorem build_sql_expr_subselects_and_separators :
  (∀ a, a ∈ langs →
     build_sql_expr a =
       header +:+
       Str.join separator (count_subselect a <$> filter (λ l, l ≠ a) langs) ∧
     length (filter (λ l, l ≠ a) langs) = length langs - 1 ∧
     count_subselects (build_sql_expr a) = length langs - 1 ∧
     count_separators (build_sql_expr a) = length langs - 2 ∧
     Str.endswith separator (build_sql_expr a) = false ∧
     ∃ l, last (filter (λ l, l ≠ a) langs) = Some l ∧
          Str.endswith (count_subselect a l) (build_sql_expr a) = true) ∧
  Str.substring_of (count_subselect "visual basic" "swift")
    (build_sql_expr "visual basic") ∧
  Str.endswith (count_subselect "visual basic" "swift")
    (build_sql_expr "visual basic") = true ∧
  ¬ Str.substring_of (count_subselect "visual basic" "swift" +:+ separator)
      (build_sql_expr "visual basic").
Proof.
  split; [|split; [|split]].
  - intros a Ha.
    split; [exact (build_sql_expr_chained a)|].
    split; [exact (targets_length a Ha)|].
    each_lang Ha;
      (split; [vm_compute; reflexivity|]);
      (split; [vm_compute; reflexivity|]);
      (split; [vm_compute; reflexivity|]);
      match goal with
      | |- ∃ l, last ?t = _ ∧ _ =>
          let v := eval vm_compute in (default "" (last t)) in exists v
      end;
      split; vm_compute; reflexivity.
  - apply StrFacts.contains_spec. vm_compute. reflexivity.
  - vm_compute. reflexivity.
  - apply StrFacts.not_contains. vm_compute. reflexivity.
Qed.

Lemma build_sql_expr_subselects_and_separators_witness :
  ("visual basic" ∈ langs) ∧
  count_subselects (build_sql_expr "visual basic") = length langs - 1 ∧
  count_separators (build_sql_expr "visual basic") = length langs - 2.
Proof.
  assert (Hin : "visual basic" ∈ langs)
    by (apply (bool_decide_unpack _); vm_compute; exact I).
  split; [exact Hin|].
  pose proof (proj1 build_sql_expr_subselects_and_separators
                "visual basic" Hin) as (_ & _ & Hsub & Hsep & _).
  exact (conj Hsub Hsep).
Defined.

(** C4: for every language [a] of [langs] other than the last one, the text
    built has exactly [length langs - 1] count subselects, one per language
    [l] other than [a], in the order of the sorted list with [a] skipped;
    the alias of the subselect of [l] is [lang_file_name l] with its spaces
    removed, and these aliases are free of spaces and pairwise distinct. *)
Theorem build_sql_expr_not_last (a : string) :
  a ∈ langs → last langs ≠ Some a →
  build_sql_expr a =
    header +:+
    Str.join separator
      ((λ l, count_fstring (Str.replace " " "" (lang_file_name l))
               (tag_pattern a) (tag_pattern l) (fix_lang_text l))
       <$> filter (λ l, l ≠ a) langs) ∧
  length (filter (λ l, l ≠ a) langs) = length langs - 1 ∧
  count_subselects (build_sql_expr a) = length langs - 1 ∧
  StronglySorted String.le (filter (λ l, l ≠ a) langs) ∧
  NoDup ((λ l, Str.replace " " "" (lang_file_name l))
         <$> filter (λ l, l ≠ a) langs) ∧
  (∀ l, Str.contains " " (Str.replace " " "" (lang_file_name l)) = false) ∧
  (∀ l, l ∈ filter (λ l, l ≠ a) langs →
     Str.substring_of
       (subselect_marker +:+ Str.replace " " "" (lang_file_name l) +:+ Str.nl)
       (build_sql_expr a)).
Proof.
  intros Ha Hlast.
  split; [exact (build_sql_expr_chained a)|].
  split; [exact (targets_length a Ha)|].
  split; [each_lang Ha; vm_compute; reflexivity|].
  split.
  { apply StronglySorted_filter, langs_sort_spec. }
  split; [exact (targets_alias_NoDup a)|].
  split; [intros l; apply StrFacts.replace_erases|].
  intros l Hl. rewrite build_sql_expr_chained.
  apply StrFacts.substring_of_app_r.
  apply (StrFacts.substring_of_trans _ (count_subselect a l)).
  - unfold count_subselect. rewrite count_fstring_shape. cbn [Str.join].
    apply StrFacts.substring_of_app_l.
    do 2 apply StrFacts.substring_of_app_r.
    exists "            ",
      ("            FROM `sotorrent-org.2018_12_09.Posts` P" +:+ Str.nl +:+
       "            " +:+
       where_predicate "            " (tag_pattern a) (tag_pattern l)
         (fix_lang_text l)).
    unfold subselect_marker, alias. str_norm.
  - apply StrFacts.join_member. by apply list_elem_of_fmap_2.
Qed.

Lemma build_sql_expr_not_last_witness :
  ("python" ∈ langs) ∧ last langs ≠ Some "python" ∧
  length (filter (λ l, l ≠ "python") langs) = length langs - 1 ∧
  count_subselects (build_sql_expr "python") = length langs - 1.
Proof.
  assert (Hin : "python" ∈ langs)
    by (apply (bool_decide_unpack _); vm_compute; exact I).
  assert (Hlast : last langs ≠ Some "python")
    by (rewrite langs_last; discriminate).
  refine (conj Hin (conj Hlast _)).
  pose proof (build_sql_expr_not_last "python" Hin Hlast)
    as (_ & Hlen & Hsub & _).
  exact (conj Hlen Hsub).
Defined.

(** * Further properties of the script *)

(** ** The filename helpers *)

Lemma lang_file_name_revert t :
  t ∉ file_name_keys → lang_file_name (revert_lang_file_name t) = t.
Proof.
  intros Hkey. destruct (decide (t ∈ file_name_tokens)) as [Htok|Htok].
  - unfold file_name_tokens in Htok.
    repeat (apply elem_of_cons in Htok as [->|Htok]); try reflexivity.
    by apply elem_of_nil in Htok.
  - rewrite (revert_lang_file_name_off_tokens t Htok).
    by apply lang_file_name_off_keys.
Qed.

(** X1: [revert_lang_file_name] undoes [lang_file_name] exactly on the
    strings that are not one of the four tokens, and [lang_file_name]
    undoes [revert_lang_file_name] exactly on the strings that are not one
    of the four keys; so [lang_file_name] gives different tokens to
    different strings as long as neither is itself a token. *)
Theorem file_name_inverse_iff :
  (∀ x, revert_lang_file_name (lang_file_name x) = x ↔ x ∉ file_name_tokens) ∧
  (∀ t, lang_file_name (revert_lang_file_name t) = t ↔ t ∉ file_name_keys) ∧
  (∀ x y, x ∉ file_name_tokens → y ∉ file_name_tokens →
     lang_file_name x = lang_file_name y → x = y).
Proof.
  assert (Hrev : ∀ x, x ∉ file_name_tokens →
                      revert_lang_file_name (lang_file_name x) = x).
  { intros x Htok. destruct (decide (x ∈ file_name_keys)) as [Hkey|Hkey].
    - unfold file_name_keys in Hkey.
      repeat (apply elem_of_cons in Hkey as [->|Hkey]); try reflexivity.
      by apply elem_of_nil in Hkey.
    - rewrite (lang_file_name_off_keys x Hkey).
      by apply revert_lang_file_name_off_tokens. }
  split; [|split].
  - intros x. split; [|apply Hrev].
    intros Heq Htok. unfold file_name_tokens in Htok.
    repeat (apply elem_of_cons in Htok as [->|Htok]); try discriminate Heq.
    by apply elem_of_nil in Htok.
  - intros t. split.
    + intros Heq Hkey. unfold file_name_keys in Hkey.
      repeat (apply elem_of_cons in Hkey as [->|Hkey]); try discriminate Heq.
      by apply elem_of_nil in Hkey.
    + apply lang_file_name_revert.
  - intros x y Hx Hy Heq.
    rewrite <- (Hrev x Hx), <- (Hrev y Hy). by rewrite Heq.
Qed.

Lemma file_name_inverse_iff_witness :
  ("c++" ∉ file_name_tokens) ∧ ("cobol" ∉ file_name_tokens) ∧
  (lang_file_name "c++" = lang_file_name "cobol" → "c++" = "cobol").
Proof.
  assert (H1 : "c++" ∉ file_name_tokens)
    by (apply (bool_decide_unpack _); vm_compute; exact I).
  assert (H2 : "cobol" ∉ file_name_tokens)
    by (apply (bool_decide_unpack _); vm_compute; exact I).
  refine (conj H1 (conj H2 _)).
  exact (proj2 (proj2 file_name_inverse_iff) "c++" "cobol" H1 H2).
Defined.

(** X2: removing the spaces of a filename token changes nothing when the
    token has none, which is the case for every language of [langs]: the
    column of a language in the count query carries the token that names
    its CSV file. *)
Theorem alias_is_file_name :
  (∀ l, Str.contains " " (lang_file_name l) = false →
        Str.replace " " "" (lang_file_name l) = lang_file_name l) ∧
  (∀ l, l ∈ langs → Str.replace " " "" (lang_file_name l) = lang_file_name l).
Proof.
  split.
  - intros l. apply StrFacts.replace_absent.
  - intros l Hl. each_lang Hl; reflexivity.
Qed.

Lemma alias_is_file_name_witness :
  ("objective c" ∈ langs) ∧
  Str.replace " " "" (lang_file_name "objective c") = "objectivec".
Proof.
  assert (Hin : "objective c" ∈ langs)
    by (apply (bool_decide_unpack _); vm_compute; exact I).
  split; [exact Hin|].
  exact (proj2 alias_is_file_name "objective c" Hin).
Defined.

(** ** The all-targets builder off the usual inputs *)

Lemma filter_all {A} (P : A → Prop) `{!∀ x, Decision (P x)} (l : list A) :
  (∀ x, x ∈ l → P x) → filter P l = l.
Proof.
  induction l as [|x l IH]; intros Hall; [done|].
  rewrite filter_cons_True by (apply Hall; left).
  f_equal. apply IH. intros y Hy. apply Hall. by right.
Qed.

(** X3: a source that is not in [langs] is not rejected: every language of
    [langs] is then a target, and the text built is the header followed by
    the [length langs] subselects, joined by the separator, with the name
    of the source, as it is, in the tag pattern unless [tag_langs] has it. *)
Theorem build_sql_expr_unknown_source (a : string) :
  a ∉ langs →
  build_sql_expr a =
    header +:+ Str.join separator (count_subselect a <$> langs) ∧
  length (count_subselect a <$> langs) = 26.
Proof.
  intros Ha. split.
  - rewrite build_sql_expr_chained. unfold chained, targets.
    rewrite filter_all; [done|]. intros l Hl ->. done.
  - by rewrite length_fmap, langs_length.
Qed.

Lemma build_sql_expr_unknown_source_witness :
  ("basic" ∉ langs) ∧
  build_sql_expr "basic" =
    header +:+ Str.join separator (count_subselect "basic" <$> langs).
Proof.
  assert (Hout : "basic" ∉ langs)
    by (apply (bool_decide_unpack _); vm_compute; exact I).
  split; [exact Hout|].
  exact (proj1 (build_sql_expr_unknown_source "basic" Hout)).
Defined.

(** X4: the builder never counts a language against itself: for a source
    of [langs], no subselect of the text carries the alias of the source,
    while the subselect of every other language is there. *)
Theorem build_sql_expr_skips_source (a : string) :
  a ∈ langs →
  Str.contains (subselect_marker +:+ alias a +:+ Str.nl) (build_sql_expr a)
    = false ∧
  (a ∉ filter (λ l, l ≠ a) langs) ∧
  (∀ l, l ∈ langs → l ≠ a →
     Str.substring_of (count_subselect a l) (build_sql_expr a)).
Proof.
  intros Ha. split; [|split].
  - each_lang Ha; vm_compute; reflexivity.
  - intros [Hne _]%list_elem_of_filter. done.
  - intros l Hl Hne. rewrite build_sql_expr_chained.
    apply StrFacts.substring_of_app_r, StrFacts.join_member.
    apply list_elem_of_fmap_2, list_elem_of_filter. done.
Qed.

Lemma build_sql_expr_skips_source_witness :
  ("go" ∈ langs) ∧
  Str.contains (subselect_marker +:+ alias "go" +:+ Str.nl)
    (build_sql_expr "go") = false.
Proof.
  assert (Hin : "go" ∈ langs)
    by (apply (bool_decide_unpack _); vm_compute; exact I).
  split; [exact Hin|].
  exact (proj1 (build_sql_expr_skips_source "go" Hin)).
Defined.

(** ** Tag lookup without an entry *)

Lemma tag_langs_missing l : tag_langs !! l = None ↔ l ∉ tag_keys.
Proof.
  split.
  - intros Hnone Hin. unfold tag_keys in Hin.
    repeat (apply elem_of_cons in Hin as [->|Hin]);
      [discriminate Hnone..|by apply elem_of_nil in Hin].
  - intros Hout. destruct (tag_langs !! l) as [t|] eqn:Hl; [|done].
    apply tag_langs_entries in Hl. destruct Hout. unfold tag_keys.
    repeat (apply elem_of_cons in Hl as [Hl|Hl]);
      [simplify_eq; set_solver..|by apply elem_of_nil in Hl].
Qed.

(** X5: the lookup in [tag_langs] is guarded: a name without an entry,
    that is any string other than the three keys, raises nothing and is
    written as it is between [%<] and [>%], as source and as target of the
    pair query and as source of the all-targets builder. *)
Theorem tag_lookup_missing_key :
  (∀ l, tag_langs !! l = None ↔ l ∉ tag_keys) ∧
  (∀ l, l ∉ tag_keys →
     (∀ b, pair_query l b =
        pair_fstring ("%<" +:+ l +:+ ">%") (tag_pattern b) (fix_lang_text b)) ∧
     (∀ a, pair_query a l =
        pair_fstring (tag_pattern a) ("%<" +:+ l +:+ ">%") (fix_lang_text l)) ∧
     build_sql_expr l =
       header +:+
       Str.join separator
         ((λ x, count_fstring (alias x) ("%<" +:+ l +:+ ">%") (tag_pattern x)
                  (fix_lang_text x)) <$> targets l)).
Proof.
  split; [exact tag_langs_missing|].
  intros l Hl. apply tag_langs_missing in Hl.
  pose proof (tag_pattern_canonical l Hl) as Ht.
  split; [|split].
  - intros b. by rewrite pair_query_tag_patterns, Ht.
  - intros a. by rewrite pair_query_tag_patterns, Ht.
  - rewrite build_sql_expr_chained. unfold chained, count_subselect.
    by rewrite Ht.
Qed.

Lemma tag_lookup_missing_key_witness :
  ("haskell" ∉ tag_keys) ∧
  (∀ b, pair_query "haskell" b =
     pair_fstring "%<haskell>%" (tag_pattern b) (fix_lang_text b)).
Proof.
  assert (Hout : "haskell" ∉ tag_keys)
    by (apply (bool_decide_unpack _); vm_compute; exact I).
  split; [exact Hout|].
  exact (proj1 (proj2 tag_lookup_missing_key "haskell" Hout)).
Defined.

(** ** Quotes in the two templates *)

Lemma occurrences_char_app c s t :
  Str.occurrences (String c "") (s +:+ t)
  = Str.occurrences (String c "") s + Str.occurrences (String c "") t.
Proof.
  induction s as [|a s IH]; [done|].
  rewrite StrFacts.app_cons. cbn [Str.occurrences Str.startswith].
  rewrite IH. destruct (decide (c = a)); lia.
Qed.

(** Split the count over the appends of a template, name the counts of the
    interpolated names and evaluate the counts of the literal pieces. *)
Ltac count_quotes :=
  unfold quotes; cbn [Str.join];
  repeat rewrite occurrences_char_app;
  repeat match goal with
    | |- context [Str.occurrences "'" ?s] =>
        is_var s; generalize (Str.occurrences "'" s); intro
    end;
  repeat match goal with
    | |- context [Str.occurrences "'" ?s] =>
        let v := eval vm_compute in (Str.occurrences "'" s) in
        change (Str.occurrences "'" s) with v
    end;
  lia.

(** X6: the names are written into the templates as they are, with no
    escaping: the pair query has the 12 single quotes of its six string
    literals plus those of the interpolated names, a subselect has 10 plus
    those of its names.  With the languages of [langs], whose patterns have
    no quote, the literals are intact: 12 quotes in every pair query and 10
    per subselect in every count query. *)
Theorem templates_do_not_escape :
  (∀ atag btag btext,
     quotes (pair_fstring atag btag btext)
     = 12 + 2 * quotes atag + quotes btag + 2 * quotes btext) ∧
  (∀ lang_no_space atag btag btext,
     quotes (count_fstring lang_no_space atag btag btext)
     = 10 + 2 * quotes lang_no_space + 2 * quotes atag + quotes btag
       + 2 * quotes btext) ∧
  (∀ a b, a ∈ langs → b ∈ langs → quotes (pair_query a b) = 12) ∧
  (∀ a, a ∈ langs → quotes (build_sql_expr a) = 10 * (length langs - 1)).
Proof.
  assert (Hpair : ∀ atag btag btext,
     quotes (pair_fstring atag btag btext)
     = 12 + 2 * quotes atag + quotes btag + 2 * quotes btext).
  { intros atag btag btext. unfold pair_fstring. count_quotes. }
  split; [exact Hpair|]. split; [|split].
  - intros lang_no_space atag btag btext. unfold count_fstring. count_quotes.
  - intros a b Ha Hb. rewrite pair_query_tag_patterns, Hpair.
    assert (Htag : ∀ l, l ∈ langs → quotes (tag_pattern l) = 0).
    { intros l Hl. each_lang Hl; vm_compute; reflexivity. }
    assert (Htext : ∀ l, l ∈ langs → quotes (fix_lang_text l) = 0).
    { intros l Hl. each_lang Hl; vm_compute; reflexivity. }
    rewrite (Htag a Ha), (Htag b Hb), (Htext b Hb). reflexivity.
  - intros a Ha. each_lang Ha; vm_compute; reflexivity.
Qed.

Lemma templates_do_not_escape_witness :
  ("perl" ∈ langs) ∧ ("ruby" ∈ langs) ∧ quotes (pair_query "perl" "ruby") = 12.
Proof.
  assert (Ha : "perl" ∈ langs)
    by (apply (bool_decide_unpack _); vm_compute; exact I).
  assert (Hb : "ruby" ∈ langs)
    by (apply (bool_decide_unpack _); vm_compute; exact I).
  refine (conj Ha (conj Hb _)).
  exact (proj1 (proj2 (proj2 templates_do_not_escape)) "perl" "ruby" Ha Hb).
Defined.

(** ** The batch drivers *)

(** Decide a closed statement by evaluation, keeping only the verdict. *)
Ltac by_decide := apply (bool_decide_unpack _); vm_compute; exact I.








(** X7: [query_all] sends one statement per language of [langs], in sorted
    order and without a location, and saves each answer in its own file
    [langcounts/<token>.csv]: the 26 paths are pairwise distinct, so no
    file of a run is overwritten by a later one, and so are the 26
    statements; no path contains a space. *)
Theorem query_all_files :
  queries query_all = build_sql_expr <$> langs ∧
  csv_paths query_all =
    (λ l, "langcounts/" +:+ lang_file_name l +:+ ".csv") <$> langs ∧
  NoDup (csv_paths query_all) ∧
  NoDup (queries query_all) ∧
  Forall (λ path, Str.contains " " path = false) (csv_paths query_all) ∧
  Forall (λ e, match e with EvQuery _ location => location = None | _ => True end)
    query_all.
Proof.
  split; [by_decide|].
  split; [by_decide|].
  split; [by_decide|].
  split; [by_decide|].
  split.
  - apply Forall_forall. intros path Hpath.
    assert (Hall : forallb (λ p, negb (Str.contains " " p)) (csv_paths query_all)
                   = true) by (vm_compute; reflexivity).
    rewrite forallb_forall in Hall. apply list_elem_of_In, Hall in Hpath.
    by apply negb_true_iff in Hpath.
  - unfold query_all. apply Forall_bind, Forall_forall. intros l _.
    repeat constructor.
Qed.



(** X9: a pair given by two filename tokens is saved under these tokens:
    when neither [p] nor [t] is one of the four canonical names with an
    override, the file written for the pair of their canonical names is
    [<path>/<p>_<t>.csv]. *)
Theorem pair_file_keeps_tokens (p t path : string) :
  p ∉ file_name_keys → t ∉ file_name_keys →
  csv_paths
    (query_language_pair (revert_lang_file_name p) (revert_lang_file_name t)
       path)
  = [path +:+ "/" +:+ p +:+ "_" +:+ t +:+ ".csv"].
Proof.
  intros Hp Ht. unfold query_language_pair, csv_paths. cbn.
  by rewrite (lang_file_name_revert p Hp), (lang_file_name_revert t Ht).
Qed.

Lemma pair_file_keeps_tokens_witness :
  ("cs" ∉ file_name_keys) ∧ ("visualbasic" ∉ file_name_keys) ∧
  csv_paths (query_language_pair "c#" "visual basic" DIR)
  = ["/Volumes/TarDisk/soposts2/cs_visualbasic.csv"].
Proof.
  assert (Hp : "cs" ∉ file_name_keys) by by_decide.
  assert (Ht : "visualbasic" ∉ file_name_keys) by by_decide.
  refine (conj Hp (conj Ht _)).
  exact (pair_file_keeps_tokens "cs" "visualbasic" DIR Hp Ht).
Defined.

(** X10: the two hardcoded lists of [query_pairs] have the same length, so
    that the zip drops no entry; every pair queried names two different
    languages of [langs]; the 15 files are written in [DIR] under the
    hardcoded tokens and are pairwise distinct, as are the 15 statements. *)
Theorem query_pairs_files :
  length prev = length target ∧
  Forall (λ pt, pt.1 ∈ langs ∧ pt.2 ∈ langs ∧ pt.1 ≠ pt.2) query_pairs_calls ∧
  csv_paths query_pairs =
    (λ pt, DIR +:+ "/" +:+ pt.1 +:+ "_" +:+ pt.2 +:+ ".csv") <$> zip prev target ∧
  queries query_pairs = (λ pt, pair_query pt.1 pt.2) <$> query_pairs_calls ∧
  NoDup (csv_paths query_pairs) ∧
  NoDup (queries query_pairs).
Proof.
  split; [reflexivity|].
  split; [by_decide|].
  split; [by_decide|].
  split; [by_decide|].
  split; by_decide.
Qed.

(** ** The tables of the module *)

(** X11: the override tables fit the language list: every key of
    [tag_langs] and of the filename if-chain is a language of [langs], no
    filename token is itself a language, and different languages of
    [langs] get different tag patterns, different text patterns and
    different filename tokens. *)
Theorem overrides_consistent :
  Forall (λ k, k ∈ langs) tag_keys ∧
  Forall (λ k, k ∈ langs) file_name_keys ∧
  Forall (λ t, t ∉ langs) file_name_tokens ∧
  NoDup (tag_pattern <$> langs) ∧
  NoDup (fix_lang_text <$> langs) ∧
  NoDup (lang_file_name <$> langs).
Proof.
  split; [by_decide|].
  split; [by_decide|].
  split; [by_decide|].
  split; [by_decide|].
  split; by_decide.
Qed.

(** X12: after [langs.sort()] the list holds the 26 names of the literal,
    each once, in strictly ascending order of their code points, from "c"
    to "visual basic". *)
Theorem langs_strictly_sorted :
  langs ≡ₚ langs_literal ∧
  StronglySorted (λ x y, String.le x y ∧ x ≠ y) langs ∧
  length langs = length langs_literal ∧
  head langs = Some "c" ∧
  last langs = Some "visual basic".
Proof.
  split; [apply merge_sort_Permutation|].
  split; [by_decide|].
  split; [by rewrite langs_length|].
  split; [by rewrite langs_sorted_value|exact langs_last].
Qed.
